(** * slog: a leveled logger with a process-wide threshold

    Shallow embedding of the Go package [slog] (Logger.go and the file that
    declares [LogLevel]) together with the small part of the Go standard
    library it calls into ([fmt], [log], [sync]).

    Conventions.
    - A Go [int] (and so a [LogLevel]) is a [Z]; the package only compares and
      prints levels, so no wrap-around arithmetic is involved.
    - A Go [string] is a byte sequence, here a [string] of [ascii].
    - Go code acts on a [World] (package variables, allocated [Logger]s, the
      byte slices handed to every writer, the wall clock) through a small
      monad whose outcomes are normal return, panic, or blocking for ever on
      a lock. *)

From Stdlib Require Import ZArith String Ascii List Bool Lia.
From Stdlib Require Import DecimalString DecimalZ.
Import ListNotations.

Local Open Scope string_scope.
Local Open Scope Z_scope.

(* ================================================================= *)
(** ** Host library: [fmt] *)

Module fmt.

(** The dynamic values the model lets a caller pass as [interface{}]
    arguments: Go [int]s and Go [string]s. *)
Inductive value : Type :=
| VInt (i : Z)
| VStr (s : string).

(** [reflect.TypeOf(arg).String()]. *)
Definition typeName (v : value) : string :=
  match v with
  | VInt _ => "int"
  | VStr _ => "string"
  end.

(** Signed base-10 rendering of an integer, as [%d] and [%v] print it. *)
Definition decimal (i : Z) : string :=
  NilZero.string_of_int (Z.to_int i).

(** Reading a signed base-10 numeral back. *)
Definition parse_decimal (s : string) : option Z :=
  option_map Z.of_int (NilZero.int_of_string s).

(** [printArg(arg, 'v')]. *)
Definition printV (v : value) : string :=
  match v with
  | VInt i => decimal i
  | VStr s => s
  end.

(** [badVerb]: the inline marker [%!verb(type=value)]. *)
Definition badVerb (verb : ascii) (v : value) : string :=
  "%!" ++ String verb ("(" ++ typeName v ++ "=" ++ printV v ++ ")").

(** [missingArg]: the inline marker [%!verb(MISSING)]. *)
Definition missingArg (verb : ascii) : string :=
  "%!" ++ String verb "(MISSING)".

Definition noVerbString : string := "%!(NOVERB)".

Definition mem_ascii (c : ascii) (s : string) : bool :=
  existsb (Ascii.eqb c) (list_ascii_of_string s).

(** [printArg(arg, verb)] for a verb with no flags. [None] marks a verb that
    is valid for the argument but whose rendering (other bases, quoting) is
    outside this model. *)
Definition printArg (v : value) (verb : ascii) : option string :=
  if Ascii.eqb verb "T" then Some (typeName v)
  else match v with
       | VInt i =>
           if mem_ascii verb "vd" then Some (decimal i)
           else if mem_ascii verb "boOxXcqU" then None
           else Some (badVerb verb v)
       | VStr s =>
           if mem_ascii verb "vs" then Some s
           else if mem_ascii verb "xXq" then None
           else Some (badVerb verb v)
       end.

(** The [%!(EXTRA type=value, ...)] suffix for unused arguments. *)
Fixpoint extraArgs (first : bool) (a : list value) : string :=
  match a with
  | [] => ""
  | v :: rest =>
      (if first then "" else ", ") ++ typeName v ++ "=" ++ printV v
      ++ extraArgs false rest
  end.

Definition extra (a : list value) : string :=
  match a with
  | [] => ""
  | _ => "%!(EXTRA " ++ extraArgs true a ++ ")"
  end.

(** The character after a [%] opens a flag, an argument index, a width or a
    precision, or is not ASCII. *)
Definition directive_start (c : ascii) : bool :=
  mem_ascii c "#0+- [*.123456789" || (128 <=? Z.of_N (N_of_ascii c)).

(** [doPrintf] on templates whose every [%] is followed directly by the verb.
    [None] when the template leaves that fragment. *)
Fixpoint doPrintf (format : string) (a : list value) : option string :=
  match format with
  | EmptyString => Some (extra a)
  | String "%" EmptyString => Some (noVerbString ++ extra a)
  | String "%" (String verb rest) =>
      if Ascii.eqb verb "%" then
        option_map (String "%") (doPrintf rest a)
      else if directive_start verb then None
      else match a with
           | [] => option_map (append (missingArg verb)) (doPrintf rest [])
           | v :: a' =>
               match printArg v verb, doPrintf rest a' with
               | Some s, Some r => Some (s ++ r)
               | _, _ => None
               end
           end
  | String c rest => option_map (String c) (doPrintf rest a)
  end.

(** [fmt.Sprintf] on the modelled fragment; the empty string stands in
    outside it, where this model says nothing. *)
Definition Sprintf (format : string) (a : list value) : string :=
  match doPrintf format a with
  | Some s => s
  | None => ""
  end.

End fmt.

(* ================================================================= *)
(** ** The level type (declared next to Logger.go) *)

Definition LogLevel : Type := Z.

Definition ERROR : LogLevel := 0.
Definition WARN  : LogLevel := 1.
Definition INFO  : LogLevel := 2.
Definition DEBUG : LogLevel := 3.
Definition FINE  : LogLevel := 4.

(** [func (l LogLevel) String() string]. The default arm is
    [fmt.Sprintf("UNKNOWN_LOG_LEVEL(%d)", l)]; [%d] does not call back into
    [String]. *)
Definition LogLevel_String (l : LogLevel) : string :=
  if l =? ERROR then "ERROR"
  else if l =? WARN then "WARN"
  else if l =? INFO then "INFO"
  else if l =? DEBUG then "DEBUG"
  else if l =? FINE then "FINE"
  else "UNKNOWN_LOG_LEVEL(" ++ fmt.decimal l ++ ")".

(* ================================================================= *)
(** ** Host library: [log] *)

Module log.

Definition Ldate         : Z := 1.
Definition Ltime         : Z := 2.
Definition Lmicroseconds : Z := 4.
Definition Llongfile     : Z := 8.
Definition Lshortfile    : Z := 16.
Definition LUTC          : Z := 32.
Definition Lmsgprefix    : Z := 64.
Definition LstdFlags     : Z := Z.lor Ldate Ltime.

(** A writer is identified by a number; the world keeps what each one was
    handed. *)
Definition Writer : Type := nat.

(** [log.Logger]: the destination, the prefix and the flags. *)
Record Logger : Type := mkLogger {
  out : Writer;
  prefix : string;
  flag : Z;
}.

(** [log.New(out, prefix, flag)]. *)
Definition New (out : Writer) (prefix : string) (flag : Z) : Logger :=
  mkLogger out prefix flag.

(** A broken-down wall-clock reading, as [t.Date()], [t.Clock()] and
    [t.Nanosecond()] give it. *)
Record Time : Type := mkTime {
  year : Z; month : Z; day : Z;
  hour : Z; minute : Z; second : Z;
  nanosecond : Z;
}.

Definition digit (d : Z) : ascii := ascii_of_N (48 + Z.to_N d).

(** [itoa(buf, i, wid)]: fixed-width decimal, zero padded; the loop runs at
    most once per byte of its 20-byte scratch buffer. *)
Fixpoint itoa_loop (fuel : nat) (i wid : Z) (acc : string) : string :=
  match fuel with
  | O => acc
  | S fuel' =>
      if (10 <=? i) || (1 <? wid) then
        let q := Z.quot i 10 in
        itoa_loop fuel' q (wid - 1) (String (digit (i - q * 10)) acc)
      else String (digit i) acc
  end.

Definition itoa (i wid : Z) : string := itoa_loop 20 i wid "".

Definition has (flag bits : Z) : bool := negb (Z.land flag bits =? 0).

(** The flags whose effect [formatHeader] below accounts for. [Llongfile]
    and [Lshortfile] (the caller's source position) and [LUTC] (a time-zone
    conversion) are left out; this package passes [LstdFlags] and its tests
    pass 0. *)
Definition modelled (flag : Z) : bool :=
  negb (has flag (Z.lor Llongfile (Z.lor Lshortfile LUTC))).

(** [formatHeader(buf, t, prefix, flag, file, line)] on [modelled] flags. *)
Definition formatHeader (t : Time) (prefix : string) (flag : Z) : string :=
  (if has flag Lmsgprefix then "" else prefix)
  ++ (if has flag (Z.lor Ldate (Z.lor Ltime Lmicroseconds)) then
        (if has flag Ldate then
           itoa (year t) 4 ++ "/" ++ itoa (month t) 2 ++ "/"
           ++ itoa (day t) 2 ++ " "
         else "")
        ++ (if has flag (Z.lor Ltime Lmicroseconds) then
              itoa (hour t) 2 ++ ":" ++ itoa (minute t) 2 ++ ":"
              ++ itoa (second t) 2
              ++ (if has flag Lmicroseconds then
                    "." ++ itoa (Z.quot (nanosecond t) 1000) 6
                  else "")
              ++ " "
            else "")
      else "")
  ++ (if has flag Lmsgprefix then prefix else "").

Definition newline : ascii := ascii_of_N 10.

Fixpoint last_byte (s : string) : option ascii :=
  match s with
  | EmptyString => None
  | String c EmptyString => Some c
  | String _ rest => last_byte rest
  end.

Definition ends_with_newline (s : string) : bool :=
  match last_byte s with
  | Some c => Ascii.eqb c newline
  | None => false
  end.

(** The buffer [Output] hands to the writer in one [Write]: header, text,
    and a newline unless the buffer already ends with one. *)
Definition line (t : Time) (l : Logger) (s : string) : string :=
  let buf := formatHeader t (prefix l) (flag l) ++ s in
  if ends_with_newline buf then buf else buf ++ String newline "".

End log.

(* ================================================================= *)
(** ** Host library: [sync] *)

Module sync.

(** [sync.RWMutex] as seen by one goroutine at a time: whether a writer
    holds it and how many readers do. *)
Record RWMutex : Type := mkRWMutex {
  writer : bool;
  readers : nat;
}.

(** The zero value is an unlocked mutex. *)
Definition zero : RWMutex := mkRWMutex false 0.

Definition idle (m : RWMutex) : bool :=
  negb (writer m) && Nat.eqb (readers m) 0.

(** The result of a lock operation: the new mutex, the caller waiting for
    another holder, or the runtime's fatal error on unlocking an unlocked
    mutex. *)
Inductive result : Type :=
| Acquired (m : RWMutex)
| Wait
| Fatal (msg : string).

Definition Lock (m : RWMutex) : result :=
  if idle m then Acquired (mkRWMutex true 0) else Wait.

Definition Unlock (m : RWMutex) : result :=
  if writer m then Acquired (mkRWMutex false (readers m))
  else Fatal "sync: Unlock of unlocked RWMutex".

Definition RLock (m : RWMutex) : result :=
  if writer m then Wait else Acquired (mkRWMutex false (S (readers m))).

Definition RUnlock (m : RWMutex) : result :=
  match readers m with
  | O => Fatal "sync: RUnlock of unlocked RWMutex"
  | S n => Acquired (mkRWMutex (writer m) n)
  end.

End sync.

(** [os.Stdout]. *)
Module os.
Definition Stdout : log.Writer := 1%nat.
End os.

(* ================================================================= *)
(** ** The package state and the monad Go code runs in *)

(** [type Logger struct]: both fields as declared. [internalLogger] is a
    pointer, [None] being nil (the zero [Logger]). *)
Record Logger : Type := mkLogger {
  internalLogger : option log.Logger;
  component : string;
}.

(** Everything a call can read or change.
    - [globalLogLevelMutex], [globalLogLevel]: the two package variables.
    - [loggers]: the allocated [Logger] structs; a non-nil [*Logger] is an
      index into this list.
    - [written w f]: the byte slices passed to [Write] on writer [f], oldest
      first, one entry per call.
    - [faulty w f]: whether [Write] on [f] reports an error.
    - [now]: the wall clock. *)
Record World : Type := mkWorld {
  globalLogLevelMutex : sync.RWMutex;
  globalLogLevel : LogLevel;
  loggers : list Logger;
  written : log.Writer -> list string;
  faulty : log.Writer -> bool;
  now : log.Time;
}.

(** A [*Logger]: nil or an address. *)
Definition LoggerPtr : Type := option nat.

(** How a call ends. *)
Inductive outcome (A : Type) : Type :=
| Done (a : A) (w : World)
| Panic (msg : string)
| Blocked.

Arguments Done {A} a w.
Arguments Panic {A} msg.
Arguments Blocked {A}.

Definition Go (A : Type) : Type := World -> outcome A.

Definition ret {A : Type} (a : A) : Go A := fun w => Done a w.

Definition bind {A B : Type} (m : Go A) (k : A -> Go B) : Go B :=
  fun w =>
    match m w with
    | Done a w' => k a w'
    | Panic msg => Panic msg
    | Blocked => Blocked
    end.

Notation "x <- m ;; k" := (bind m (fun x => k))
  (at level 61, m at next level, right associativity).
Notation "m ;; k" := (bind m (fun _ => k))
  (at level 61, right associativity).

(** [defer d] in front of a function body: the body's result is fixed first,
    then [d] runs, then the function returns that result. (The two bodies
    below cannot panic, so unwinding is not modelled.) *)
Definition defer {A : Type} (d : Go unit) (body : Go A) : Go A :=
  a <- body ;; d ;; ret a.

(** A lock operation on [globalLogLevelMutex]. *)
Definition on_mutex (op : sync.RWMutex -> sync.result) : Go unit :=
  fun w =>
    match op (globalLogLevelMutex w) with
    | sync.Acquired m =>
        Done tt (mkWorld m (globalLogLevel w) (loggers w) (written w)
                   (faulty w) (now w))
    | sync.Wait => Blocked
    | sync.Fatal msg => Panic msg
    end.

Definition load_globalLogLevel : Go LogLevel :=
  fun w => Done (globalLogLevel w) w.

Definition store_globalLogLevel (level : LogLevel) : Go unit :=
  fun w =>
    Done tt (mkWorld (globalLogLevelMutex w) level (loggers w) (written w)
               (faulty w) (now w)).

(** [&Logger{...}]: a fresh struct, placed after the ones already there. *)
Definition alloc_Logger (l : Logger) : Go LoggerPtr :=
  fun w =>
    Done (Some (length (loggers w)))
      (mkWorld (globalLogLevelMutex w) (globalLogLevel w) (loggers w ++ [l])%list
         (written w) (faulty w) (now w)).

(** Reading through a [*Logger]; nil, like an address never allocated,
    panics. *)
Definition deref (l : LoggerPtr) : Go Logger :=
  fun w =>
    match l with
    | Some a =>
        match nth_error (loggers w) a with
        | Some s => Done s w
        | None => Panic "invalid memory address or nil pointer dereference"
        end
    | None => Panic "invalid memory address or nil pointer dereference"
    end.

(** [out.Write(buf)]: the writer is handed [buf]; its error, if any, is the
    result. *)
Definition Write (f : log.Writer) (buf : string) : Go (option string) :=
  fun w =>
    Done (if faulty w f then Some "write error" else None)
      (mkWorld (globalLogLevelMutex w) (globalLogLevel w) (loggers w)
         (fun g => if Nat.eqb g f then (written w g ++ [buf])%list else written w g)
         (faulty w) (now w)).

(** [Output] of [log.Logger]: format the line at the current time and write it
    in one call; the writer's error is returned. *)
Definition log_Output (l : log.Logger) (s : string) : Go (option string) :=
  fun w => Write (log.out l) (log.line (now w) l s) w.

(** [Printf] of [log.Logger] once its arguments are formatted to [s]: the
    error of [Output] is dropped. A nil receiver panics. *)
Definition log_Printf (l : option log.Logger) (s : string) : Go unit :=
  match l with
  | Some lg => log_Output lg s ;; ret tt
  | None => fun _ => Panic "invalid memory address or nil pointer dereference"
  end.

(* ================================================================= *)
(** ** Logger.go *)

(** [var globalLogLevelMutex sync.RWMutex] and
    [var globalLogLevel LogLevel = INFO] at process start, with no [Logger]
    allocated and nothing written yet. *)
Definition init (faulty : log.Writer -> bool) (now : log.Time) : World :=
  mkWorld sync.zero INFO [] (fun _ => []) faulty now.

Definition SetGlobalMinLevel (level : LogLevel) : Go unit :=
  on_mutex sync.Lock ;;
  defer (on_mutex sync.Unlock)
    (store_globalLogLevel level).

Definition GetGlobalMinLevel : Go LogLevel :=
  on_mutex sync.RLock ;;
  defer (on_mutex sync.RUnlock)
    load_globalLogLevel.

(** [output] is a [*os.File], [None] being nil. *)
Definition NewLogger (component : string) (output : option log.Writer)
  : Go LoggerPtr :=
  let output := match output with
                | None => os.Stdout
                | Some f => f
                end in
  alloc_Logger
    (mkLogger (Some (log.New output "" log.LstdFlags)) component).

(** The tests' constructor: no header flags. *)
Definition newTestLogger (output : log.Writer) (component : string)
  : Go LoggerPtr :=
  alloc_Logger (mkLogger (Some (log.New output "" 0)) component).

Section Package.

(** The host's [fmt.Sprintf]. *)
Variable Sprintf : string -> list fmt.value -> string.

Definition logf (l : LoggerPtr) (level : LogLevel) (msg : string)
    (params : list fmt.value) : Go unit :=
  threshold <- GetGlobalMinLevel ;;
  if level >? threshold then ret tt
  else
    let prefix := Sprintf "[%s]" [fmt.VStr (LogLevel_String level)] in
    s <- deref l ;;
    let prefix :=
      if negb (String.eqb (component s) "") then
        Sprintf "%s[%s]" [fmt.VStr prefix; fmt.VStr (component s)]
      else prefix in
    log_Printf (internalLogger s)
      (Sprintf "%s %s" [fmt.VStr prefix; fmt.VStr (Sprintf msg params)]).

Definition Error (l : LoggerPtr) (msg : string) (params : list fmt.value)
  : Go unit := logf l ERROR msg params.

Definition Warn (l : LoggerPtr) (msg : string) (params : list fmt.value)
  : Go unit := logf l WARN msg params.

Definition Info (l : LoggerPtr) (msg : string) (params : list fmt.value)
  : Go unit := logf l INFO msg params.

Definition Debug (l : LoggerPtr) (msg : string) (params : list fmt.value)
  : Go unit := logf l DEBUG msg params.

Definition Fine (l : LoggerPtr) (msg : string) (params : list fmt.value)
  : Go unit := logf l FINE msg params.

(** The five per-level methods, to quantify over them. *)
Inductive Method : Type := MError | MWarn | MInfo | MDebug | MFine.

Definition Method_level (m : Method) : LogLevel :=
  match m with
  | MError => ERROR
  | MWarn => WARN
  | MInfo => INFO
  | MDebug => DEBUG
  | MFine => FINE
  end.

Definition invoke (m : Method)
  : LoggerPtr -> string -> list fmt.value -> Go unit :=
  match m with
  | MError => Error
  | MWarn => Warn
  | MInfo => Info
  | MDebug => Debug
  | MFine => Fine
  end.

(** One call of the package's interface, and a client running a sequence
    of them. *)
Inductive Call : Type :=
| CSet (level : LogLevel)
| CGet
| CNew (component : string) (output : option log.Writer)
| CLog (m : Method) (l : LoggerPtr) (msg : string) (params : list fmt.value).

Definition exec (c : Call) : Go unit :=
  match c with
  | CSet level => SetGlobalMinLevel level
  | CGet => GetGlobalMinLevel ;; ret tt
  | CNew component output => NewLogger component output ;; ret tt
  | CLog m l msg params => invoke m l msg params
  end.

Fixpoint exec_all (cs : list Call) : Go unit :=
  match cs with
  | [] => ret tt
  | c :: rest => exec c ;; exec_all rest
  end.

Definition is_CSet (c : Call) : bool :=
  match c with
  | CSet _ => true
  | _ => false
  end.

End Package.

(** What the package relies on from the host's [Sprintf]: a template made of
    [%s] verbs and literal text, given as many strings, is the strings spliced
    into the text. Only the three templates of Logger.go and of [Printf] are
    needed. *)
Definition formats_strings (Sprintf : string -> list fmt.value -> string)
  : Prop :=
  (forall s, Sprintf "[%s]" [fmt.VStr s] = "[" ++ s ++ "]")
  /\ (forall p c,
        Sprintf "%s[%s]" [fmt.VStr p; fmt.VStr c] = p ++ "[" ++ c ++ "]")
  /\ (forall p m, Sprintf "%s %s" [fmt.VStr p; fmt.VStr m] = p ++ " " ++ m).

(** The text of a line as Logger.go builds it: level tag, component tag when
    there is a component, one space, the message. *)
Definition tagged (level : LogLevel) (component message : string) : string :=
  "[" ++ LogLevel_String level ++ "]"
  ++ (if String.eqb component "" then "" else "[" ++ component ++ "]")
  ++ " " ++ message.

(** [w'] is [w] after one [Write] of [buf] on [f] and nothing else. *)
Definition wrote (w w' : World) (f : log.Writer) (buf : string) : Prop :=
  globalLogLevelMutex w' = globalLogLevelMutex w
  /\ globalLogLevel w' = globalLogLevel w
  /\ loggers w' = loggers w
  /\ faulty w' = faulty w
  /\ now w' = now w
  /\ written w' f = (written w f ++ [buf])%list
  /\ (forall g, g <> f -> written w' g = written w g).

(** The header [LstdFlags] produces: date, time, each followed by a space. *)
Definition stamp (t : log.Time) : string :=
  log.itoa (log.year t) 4 ++ "/" ++ log.itoa (log.month t) 2 ++ "/"
  ++ log.itoa (log.day t) 2 ++ " "
  ++ log.itoa (log.hour t) 2 ++ ":" ++ log.itoa (log.minute t) 2 ++ ":"
  ++ log.itoa (log.second t) 2 ++ " ".

Definition writer_free (w : World) : Prop :=
  sync.writer (globalLogLevelMutex w) = false.

Definition unlocked (w : World) : Prop :=
  globalLogLevelMutex w = sync.zero.

(** A sample clock reading and sample worlds for closed examples: one
    [Logger] with component [DB] on writer 7 with no header flags, one with
    no component on standard output as [NewLogger] builds it. *)
Definition noon : log.Time := log.mkTime 2024 3 7 12 0 5 0.

Definition sample_loggers : list Logger :=
  [mkLogger (Some (log.New 7%nat "" 0)) "DB";
   mkLogger (Some (log.New os.Stdout "" log.LstdFlags)) ""].

Definition sample (threshold : LogLevel) : World :=
  mkWorld sync.zero threshold sample_loggers (fun _ => []) (fun _ => false)
    noon.

Definition nl : string := String log.newline "".

(** Whether a call of method [m] under threshold [t] writes anything, on a
    fresh test logger. *)
Definition logs (t : LogLevel) (m : Method) : bool :=
  match (l <- newTestLogger 7%nat "TestComponent" ;;
         SetGlobalMinLevel t ;;
         invoke fmt.Sprintf m l "message" [])
          (init (fun _ => false) noon) with
  | Done _ w => negb (Nat.eqb (length (written w 7%nat)) 0)
  | _ => false
  end.

(** What a call of method [m] writes under threshold [FINE], on a fresh test
    logger with the given component. *)
Definition output_of (component : string) (m : Method) (msg : string)
    (params : list fmt.value) : list string :=
  match (l <- newTestLogger 7%nat component ;;
         SetGlobalMinLevel FINE ;;
         invoke fmt.Sprintf m l msg params)
          (init (fun _ => false) noon) with
  | Done _ w => written w 7%nat
  | _ => []
  end.

(** The threshold a client leaves behind: the argument of its last
    [SetGlobalMinLevel], or the threshold it started from. *)
Fixpoint last_set (cs : list Call) (start : LogLevel) : LogLevel :=
  match cs with
  | [] => start
  | CSet level :: rest => last_set rest level
  | _ :: rest => last_set rest start
  end.

Definition is_CLog (c : Call) : bool :=
  match c with
  | CLog _ _ _ _ => true
  | _ => false
  end.

Definition is_CNew (c : Call) : bool :=
  match c with
  | CNew _ _ => true
  | _ => false
  end.

(** [c] is a call of one of the five methods, at or below the threshold of
    [w], on a [Logger] of [w] whose internal logger writes to [f]. *)
Definition admitted_on (w : World) (f : log.Writer) (c : Call) : Prop :=
  match c with
  | CLog m (Some a) _ _ =>
      exists s lg,
        nth_error (loggers w) a = Some s
        /\ internalLogger s = Some lg
        /\ log.out lg = f
        /\ Method_level m <= globalLogLevel w
  | _ => False
  end.

(** One logging call on the [Logger] at address [a]. *)
Definition log_call (a : nat) (item : Method * string * list fmt.value)
  : Call :=
  let '(m, msg, params) := item in CLog m (Some a) msg params.

(** A [Logger] that cannot write: nil, or one whose internal logger is nil
    (the zero [Logger]). *)
Definition unusable (w : World) (l : LoggerPtr) : Prop :=
  match l with
  | None => True
  | Some a =>
      exists s, nth_error (loggers w) a = Some s /\ internalLogger s = None
  end.

(** The line of a logger with no header: the tagged text, and a newline
    unless the text ends with one. *)
Definition plain_line (component : string) (level : LogLevel)
    (text : string) : string :=
  tagged level component text
  ++ (if log.ends_with_newline text then "" else nl).

(* ================================================================= *)
(** ** Properties *)

(** *** The host model *)

Example String_99 : LogLevel_String 99 = "UNKNOWN_LOG_LEVEL(99)".
Proof. reflexivity. Qed.

Example Sprintf_job :
  fmt.Sprintf "Job %d failed for user %s" [fmt.VInt 123; fmt.VStr "Alice"]
  = "Job 123 failed for user Alice".
Proof. reflexivity. Qed.

Example Sprintf_missing : fmt.Sprintf "n=%d" [] = "n=%!d(MISSING)".
Proof. reflexivity. Qed.

Example Sprintf_wrong : fmt.Sprintf "n=%d" [fmt.VStr "x"] = "n=%!d(string=x)".
Proof. reflexivity. Qed.

Example Sprintf_extra :
  fmt.Sprintf "hi" [fmt.VInt 1; fmt.VStr "x"] = "hi%!(EXTRA int=1, string=x)".
Proof. reflexivity. Qed.

Lemma append_nil_r (s : string) : s ++ "" = s.
Proof. induction s as [|c s IH]; cbn; [reflexivity | now rewrite IH]. Qed.

Lemma append_assoc (a b c : string) : (a ++ b) ++ c = a ++ (b ++ c).
Proof. induction a as [|x a IH]; cbn; [reflexivity | now rewrite IH]. Qed.

(** Bring nested concatenations to one right-nested form. *)
Ltac norm_app := repeat first [rewrite append_assoc | progress cbn].

Lemma fmt_Sprintf_formats_strings : formats_strings fmt.Sprintf.
Proof.
  repeat split; intros; unfold fmt.Sprintf; cbn;
    rewrite ?append_nil_r; reflexivity.
Qed.

Lemma decimal_parse (i : Z) : fmt.parse_decimal (fmt.decimal i) = Some i.
Proof.
  unfold fmt.parse_decimal, fmt.decimal.
  rewrite NilZero.isi.
  - cbn. now rewrite DecimalZ.of_to.
  - destruct i; cbn; try discriminate.
    pose proof (DecimalPos.Unsigned.to_uint_nonnil p). congruence.
  - destruct i; cbn; try discriminate.
    pose proof (DecimalPos.Unsigned.to_uint_nonnil p). congruence.
Qed.

Lemma last_byte_cons (c : ascii) (s : string) :
  exists d, log.last_byte (String c s) = Some d.
Proof.
  revert c. induction s as [|x s IH]; intros c.
  - now exists c.
  - destruct (IH x) as [d Hd]. exists d. exact Hd.
Qed.

Lemma last_byte_app (a b : string) :
  log.last_byte (a ++ b) =
  match log.last_byte b with
  | Some c => Some c
  | None => log.last_byte a
  end.
Proof.
  induction a as [|x a IH].
  - cbn. now destruct (log.last_byte b).
  - destruct a as [|y a].
    + destruct b as [|z b]; [reflexivity|].
      destruct (last_byte_cons z b) as [d Hd].
      change (log.last_byte ("" ++ String z b)) with (log.last_byte (String z b)) in IH.
      change (log.last_byte (String x "" ++ String z b))
        with (log.last_byte (String z b)).
      now rewrite Hd.
    + change (log.last_byte (String x (String y a) ++ b))
        with (log.last_byte (String y a ++ b)).
      rewrite IH. reflexivity.
Qed.

(** Whether a line ends with a newline is decided by its message alone: the
    space in front of the message is never the last byte unless the message
    is empty, and a space is not a newline. *)
Lemma ends_with_newline_tagged (h : string) (level : LogLevel)
    (component message : string) :
  log.ends_with_newline (h ++ tagged level component message)
  = log.ends_with_newline message.
Proof.
  unfold tagged, log.ends_with_newline.
  rewrite <- !append_assoc.
  rewrite (last_byte_app _ message).
  destruct (log.last_byte message) as [c|] eqn:E; [reflexivity|].
  rewrite (last_byte_app _ " "). reflexivity.
Qed.

Lemma formatHeader_no_flags (t : log.Time) : log.formatHeader t "" 0 = "".
Proof. reflexivity. Qed.

Lemma formatHeader_LstdFlags (t : log.Time) :
  log.formatHeader t "" log.LstdFlags = stamp t.
Proof.
  unfold log.formatHeader, stamp. cbn [log.has]. cbn.
  rewrite ?append_nil_r, ?append_assoc.
  repeat (rewrite ?append_assoc; cbn; f_equal).
Qed.

(** *** The threshold *)

Lemma GetGlobalMinLevel_returns (w : World) :
  writer_free w -> GetGlobalMinLevel w = Done (globalLogLevel w) w.
Proof.
  unfold writer_free. destruct w as [[wr r] lv hp wt fl t]. cbn.
  intros ->. reflexivity.
Qed.

Lemma SetGlobalMinLevel_stores (level : LogLevel) (w : World) :
  unlocked w ->
  SetGlobalMinLevel level w =
  Done tt (mkWorld sync.zero level (loggers w) (written w) (faulty w) (now w)).
Proof.
  unfold unlocked. destruct w as [m lv hp wt fl t]. cbn.
  intros ->. reflexivity.
Qed.

Lemma unlocked_writer_free (w : World) : unlocked w -> writer_free w.
Proof. unfold unlocked, writer_free. now intros ->. Qed.

Section Threshold.

Variable Sprintf : string -> list fmt.value -> string.

(** A call above the threshold returns with the world as it was, whatever
    the receiver. *)
Lemma logf_suppressed (w : World) (l : LoggerPtr) (level : LogLevel)
    (msg : string) (params : list fmt.value) :
  writer_free w ->
  level > globalLogLevel w ->
  logf Sprintf l level msg params w = Done tt w.
Proof.
  intros Hw Hgt. unfold logf, bind.
  rewrite (GetGlobalMinLevel_returns w Hw).
  destruct (Z.gtb_spec level (globalLogLevel w)); [reflexivity | lia].
Qed.

(** A call at or below the threshold on an allocated [Logger] with an
    internal logger performs exactly one [Write], of the line [log] builds
    from the text Logger.go formats. *)
Lemma logf_emits (w : World) (a : nat) (s : Logger) (lg : log.Logger)
    (level : LogLevel) (msg : string) (params : list fmt.value) :
  formats_strings Sprintf ->
  writer_free w ->
  nth_error (loggers w) a = Some s ->
  internalLogger s = Some lg ->
  level <= globalLogLevel w ->
  exists w',
    logf Sprintf (Some a) level msg params w = Done tt w'
    /\ wrote w w' (log.out lg)
         (log.line (now w) lg
            (tagged level (component s) (Sprintf msg params))).
Proof.
  intros (Hl & Hc & Hp) Hw Ha Hlg Hle. unfold logf, bind.
  rewrite (GetGlobalMinLevel_returns w Hw).
  destruct (Z.gtb_spec level (globalLogLevel w)); [lia|].
  unfold deref. rewrite Ha, Hlg. cbn.
  eexists. split; [reflexivity|].
  unfold wrote; cbn. repeat split.
  - rewrite Nat.eqb_refl. do 3 f_equal.
    rewrite Hp. unfold tagged.
    destruct (String.eqb_spec (component s) "") as [E|E]; cbn.
    + rewrite Hl. now norm_app.
    + rewrite Hc, Hl. now norm_app.
  - intros g Hg. now apply Nat.eqb_neq in Hg as ->.
Qed.

Lemma invoke_logf (m : Method) :
  invoke Sprintf m = fun l => logf Sprintf l (Method_level m).
Proof. now destruct m. Qed.

End Threshold.

Lemma wrote_grows (w w' : World) (f : log.Writer) (buf : string) :
  wrote w w' f buf -> written w' f <> written w f.
Proof.
  intros (_ & _ & _ & _ & _ & H & _) E. rewrite E in H.
  apply (f_equal (@length string)) in H. rewrite length_app in H. cbn in H. lia.
Qed.

(** Without the host assumption: an admitted call on a usable [Logger]
    returns after exactly one [Write] on the logger's writer. *)
Lemma logf_writes (Sprintf : string -> list fmt.value -> string)
    (w : World) (a : nat) (s : Logger) (lg : log.Logger)
    (level : LogLevel) (msg : string) (params : list fmt.value) :
  writer_free w ->
  nth_error (loggers w) a = Some s ->
  internalLogger s = Some lg ->
  level <= globalLogLevel w ->
  exists buf w',
    logf Sprintf (Some a) level msg params w = Done tt w'
    /\ wrote w w' (log.out lg) buf.
Proof.
  intros Hw Ha Hlg Hle. unfold logf, bind.
  rewrite (GetGlobalMinLevel_returns w Hw).
  destruct (Z.gtb_spec level (globalLogLevel w)); [lia|].
  unfold deref. rewrite Ha, Hlg. cbn.
  do 2 eexists. split; [reflexivity|].
  unfold wrote; cbn. repeat split.
  - now rewrite Nat.eqb_refl.
  - intros g Hg. now apply Nat.eqb_neq in Hg as ->.
Qed.

(** The level check, for the five methods: the call returns, and a line reaches the
    logger's writer exactly when the method's level is at most the
    threshold. *)
Lemma invoke_level_check
    (Sprintf : string -> list fmt.value -> string)
    (w : World) (a : nat) (s : Logger) (lg : log.Logger) (m : Method)
    (msg : string) (params : list fmt.value) :
  writer_free w ->
  nth_error (loggers w) a = Some s ->
  internalLogger s = Some lg ->
  exists w',
    invoke Sprintf m (Some a) msg params w = Done tt w'
    /\ (Method_level m <= globalLogLevel w <->
        exists buf,
          written w' (log.out lg) = (written w (log.out lg) ++ [buf])%list)
    /\ (Method_level m > globalLogLevel w ->
        forall f, written w' f = written w f).
Proof.
  intros Hw Ha Hlg. rewrite invoke_logf.
  destruct (Z_le_gt_dec (Method_level m) (globalLogLevel w)) as [Hle|Hgt].
  - destruct (logf_writes Sprintf w a s lg _ msg params Hw Ha Hlg Hle)
      as (buf & w' & Hrun & Hwr).
    exists w'. split; [exact Hrun|]. split.
    + split; [|intros; exact Hle].
      intros _. exists buf. apply Hwr.
    + lia.
  - exists w. split; [now apply logf_suppressed|]. split.
    + split; [lia|]. intros (buf & E).
      apply (f_equal (@length string)) in E. rewrite length_app in E.
      cbn in E. lia.
    + reflexivity.
Qed.

(* ================================================================= *)
(** ** Specification statements *)

(** C4. [String] is a total pure function: it yields ERROR, WARN, INFO, DEBUG
    and FINE on the five named levels, and on every other integer V the text
    UNKNOWN_LOG_LEVEL(V) where V is printed in signed decimal, so that reading
    the digits back gives V again. *)
Theorem LogLevel_String_names :
  LogLevel_String ERROR = "ERROR"
  /\ LogLevel_String WARN = "WARN"
  /\ LogLevel_String INFO = "INFO"
  /\ LogLevel_String DEBUG = "DEBUG"
  /\ LogLevel_String FINE = "FINE"
  /\ forall V : LogLevel,
       V < ERROR \/ FINE < V ->
       LogLevel_String V = "UNKNOWN_LOG_LEVEL(" ++ fmt.decimal V ++ ")"
       /\ fmt.parse_decimal (fmt.decimal V) = Some V.
Proof.
  repeat split; try reflexivity.
  - unfold LogLevel_String, ERROR, WARN, INFO, DEBUG, FINE in *.
    repeat match goal with
           | |- context [?x =? ?y] => destruct (Z.eqb_spec x y); [lia|]
           end.
    reflexivity.
  - apply decimal_parse.
Qed.

Lemma LogLevel_String_names_witness :
  LogLevel_String 99 = "UNKNOWN_LOG_LEVEL(99)"
  /\ LogLevel_String (-1) = "UNKNOWN_LOG_LEVEL(-1)".
Proof.
  destruct LogLevel_String_names as (_ & _ & _ & _ & _ & H).
  split.
  - apply (H 99). right. reflexivity.
  - apply (H (-1)). left. reflexivity.
Defined.

(** C3. From a state in which nobody holds the lock, [SetGlobalMinLevel X]
    returns, and [GetGlobalMinLevel] called next returns exactly X; this
    holds for every X, the five named levels included. *)
Theorem SetGlobalMinLevel_then_Get (X : LogLevel) (w : World) :
  unlocked w ->
  exists w1,
    SetGlobalMinLevel X w = Done tt w1
    /\ GetGlobalMinLevel w1 = Done X w1.
Proof.
  intros Hu. eexists. split.
  - apply SetGlobalMinLevel_stores, Hu.
  - apply (GetGlobalMinLevel_returns (mkWorld sync.zero X _ _ _ _)).
    reflexivity.
Qed.

Lemma SetGlobalMinLevel_then_Get_witness :
  exists w1,
    SetGlobalMinLevel DEBUG (sample INFO) = Done tt w1
    /\ GetGlobalMinLevel w1 = Done DEBUG w1.
Proof.
  apply (SetGlobalMinLevel_then_Get DEBUG (sample INFO)). reflexivity.
Defined.



(** C6. A call of one of the five methods whose level is above the threshold
    returns at once with the world exactly as it was: nothing handed to any
    writer, the threshold and lock as before, every [Logger] as before. This
    holds for any receiver, nil included. *)
Theorem suppressed_call_changes_nothing
    (Sprintf : string -> list fmt.value -> string)
    (w : World) (m : Method) (l : LoggerPtr)
    (msg : string) (params : list fmt.value) :
  writer_free w ->
  Method_level m > globalLogLevel w ->
  invoke Sprintf m l msg params w = Done tt w.
Proof.
  intros Hw Hgt. rewrite invoke_logf. now apply logf_suppressed.
Qed.

Lemma suppressed_call_changes_nothing_witness :
  invoke fmt.Sprintf MInfo (Some 0%nat) "skip" [] (sample WARN)
  = Done tt (sample WARN).
Proof.
  apply (suppressed_call_changes_nothing fmt.Sprintf (sample WARN) MInfo);
    reflexivity.
Defined.

(** C2, as stated, fails: the line handed to the writer does not always end
    with a newline added after the message. [Info] with the message x
    followed by a newline writes the tag, a space and the message, and no
    further newline. *)
Lemma message_newline_not_repeated :
  exists w',
    Info fmt.Sprintf (Some 0%nat) ("x" ++ nl) [] (sample INFO) = Done tt w'
    /\ written w' 7%nat = ["[INFO][DB] x" ++ nl]
    /\ written w' 7%nat
       <> ["[INFO][DB]" ++ " " ++ fmt.Sprintf ("x" ++ nl) [] ++ nl].
Proof.
  eexists. split; [cbv; reflexivity|]. split; [reflexivity|]. discriminate.
Qed.

(** C2, amended. A call of one of the five methods at or below the threshold,
    on a [Logger] built by [NewLogger] (flags [LstdFlags]) or by the tests'
    constructor (flags 0), hands the writer exactly one buffer: the date and
    time stamp under [LstdFlags] and nothing under 0, then the level in
    brackets, then the component in brackets unless it is empty, one space,
    the formatted message, and a newline only if the formatted message does
    not itself end with one. *)
Theorem emitted_line_format
    (Sprintf : string -> list fmt.value -> string)
    (w : World) (a : nat) (s : Logger) (f : log.Writer) (flags : Z)
    (m : Method) (msg : string) (params : list fmt.value) :
  formats_strings Sprintf ->
  writer_free w ->
  nth_error (loggers w) a = Some s ->
  internalLogger s = Some (log.New f "" flags) ->
  flags = 0 \/ flags = log.LstdFlags ->
  Method_level m <= globalLogLevel w ->
  exists w',
    invoke Sprintf m (Some a) msg params w = Done tt w'
    /\ wrote w w' f
         ((if flags =? 0 then "" else stamp (now w))
          ++ "[" ++ LogLevel_String (Method_level m) ++ "]"
          ++ (if String.eqb (component s) "" then ""
              else "[" ++ component s ++ "]")
          ++ " " ++ Sprintf msg params
          ++ (if log.ends_with_newline (Sprintf msg params) then ""
              else nl)).
Proof.
  intros HS Hw Ha Hlg Hfl Hle. rewrite invoke_logf.
  destruct (logf_emits Sprintf w a s _ (Method_level m) msg params
              HS Hw Ha Hlg Hle) as (w' & Hrun & Hwr).
  exists w'. split; [exact Hrun|].
  cbn [log.out log.New] in Hwr.
  match goal with
  | |- wrote _ _ _ ?b =>
      match type of Hwr with
      | wrote _ _ _ ?b' => replace b with b'; [exact Hwr|]
      end
  end.
  unfold log.line. cbn [log.prefix log.flag log.New].
  rewrite ends_with_newline_tagged.
  assert (Hh : log.formatHeader (now w) "" flags
               = if flags =? 0 then "" else stamp (now w)).
  { destruct Hfl as [-> | ->].
    - apply formatHeader_no_flags.
    - apply formatHeader_LstdFlags. }
  rewrite Hh. unfold tagged.
  destruct (log.ends_with_newline (Sprintf msg params));
    rewrite ?append_nil_r, ?append_assoc; reflexivity.
Qed.

Lemma emitted_line_format_witness :
  exists w',
    invoke fmt.Sprintf MWarn (Some 0%nat) "Job %d failed for user %s"
      [fmt.VInt 123; fmt.VStr "Alice"] (sample FINE) = Done tt w'
    /\ wrote (sample FINE) w' 7%nat
         ("[WARN][DB] Job 123 failed for user Alice" ++ nl).
Proof.
  apply (emitted_line_format fmt.Sprintf (sample FINE) 0
           (mkLogger (Some (log.New 7%nat "" 0)) "DB") 7%nat 0 MWarn
           "Job %d failed for user %s" [fmt.VInt 123; fmt.VStr "Alice"]).
  - exact fmt_Sprintf_formats_strings.
  - reflexivity.
  - reflexivity.
  - reflexivity.
  - left. reflexivity.
  - discriminate.
Defined.



(** *** What a returning call can have changed *)

Lemma bind_Done {A B : Type} (m : Go A) (k : A -> Go B) (w w2 : World)
    (b : B) :
  bind m k w = Done b w2 ->
  exists a w1, m w = Done a w1 /\ k a w1 = Done b w2.
Proof.
  unfold bind. destruct (m w) as [a w1| |]; try discriminate.
  intros H. now exists a, w1.
Qed.

Lemma GetGlobalMinLevel_Done (w w1 : World) (v : LogLevel) :
  GetGlobalMinLevel w = Done v w1 ->
  writer_free w /\ v = globalLogLevel w /\ w1 = w.
Proof.
  unfold writer_free. destruct w as [[[|] r] lv hp wt fl t]; cbn.
  - discriminate.
  - intros H. injection H as <- <-. auto.
Qed.

Lemma SetGlobalMinLevel_Done (level : LogLevel) (w w1 : World) :
  SetGlobalMinLevel level w = Done tt w1 ->
  unlocked w
  /\ w1 = mkWorld sync.zero level (loggers w) (written w) (faulty w) (now w).
Proof.
  unfold unlocked. destruct w as [[[|] [|r]] lv hp wt fl t]; cbn;
    try discriminate.
  intros H. injection H as <-. auto.
Qed.

Section Frame.

Variable Sprintf : string -> list fmt.value -> string.

Lemma logf_Done (w w' : World) (l : LoggerPtr) (level : LogLevel)
    (msg : string) (params : list fmt.value) :
  logf Sprintf l level msg params w = Done tt w' ->
  globalLogLevelMutex w' = globalLogLevelMutex w
  /\ globalLogLevel w' = globalLogLevel w
  /\ loggers w' = loggers w.
Proof.
  unfold logf. intros H.
  apply bind_Done in H as (t & w1 & Hget & H).
  apply GetGlobalMinLevel_Done in Hget as (_ & -> & ->).
  destruct (level >? globalLogLevel w).
  - injection H as <-. auto.
  - apply bind_Done in H as (s & w1 & Hd & H).
    unfold deref in Hd.
    destruct l as [a|]; [|discriminate].
    destruct (nth_error (loggers w) a); [|discriminate].
    injection Hd as <- <-.
    destruct (internalLogger _) as [lg|]; [|discriminate].
    cbn in H. injection H as <-. auto.
Qed.

(** Every call of the interface leaves the [Logger]s already allocated as
    they are; it can only add new ones after them. *)
Lemma exec_loggers (c : Call) (w w' : World) :
  exec Sprintf c w = Done tt w' ->
  exists more, loggers w' = (loggers w ++ more)%list.
Proof.
  destruct c as [level| |component output|m l msg params]; cbn; intros H.
  - apply SetGlobalMinLevel_Done in H as (_ & ->). exists []. cbn.
    now rewrite app_nil_r.
  - apply bind_Done in H as (v & w1 & Hget & H).
    apply GetGlobalMinLevel_Done in Hget as (_ & _ & ->).
    injection H as <-. exists []. now rewrite app_nil_r.
  - cbv [NewLogger alloc_Logger bind ret] in H. injection H as <-.
    cbn. eexists. reflexivity.
  - rewrite invoke_logf in H. apply logf_Done in H as (_ & _ & ->).
    exists []. now rewrite app_nil_r.
Qed.

Lemma exec_all_loggers (cs : list Call) (w w' : World) :
  exec_all Sprintf cs w = Done tt w' ->
  exists more, loggers w' = (loggers w ++ more)%list.
Proof.
  revert w. induction cs as [|c cs IH]; intros w H; cbn in H.
  - injection H as <-. exists []. now rewrite app_nil_r.
  - apply bind_Done in H as ([] & w1 & Hc & H).
    apply exec_loggers in Hc as (m1 & E1).
    apply IH in H as (m2 & E2).
    exists (m1 ++ m2)%list. now rewrite E2, E1, app_assoc.
Qed.

(** Only [SetGlobalMinLevel] changes the threshold, and every call that
    returns has released the lock. *)
Lemma exec_threshold (c : Call) (w w' : World) :
  is_CSet c = false ->
  unlocked w ->
  exec Sprintf c w = Done tt w' ->
  unlocked w' /\ globalLogLevel w' = globalLogLevel w.
Proof.
  unfold unlocked.
  destruct c as [level| |component output|m l msg params]; cbn;
    intros Hc Hu H.
  - discriminate.
  - apply bind_Done in H as (v & w1 & Hget & H).
    apply GetGlobalMinLevel_Done in Hget as (_ & _ & ->).
    injection H as <-. auto.
  - cbv [NewLogger alloc_Logger bind ret] in H. injection H as <-. auto.
  - rewrite invoke_logf in H. apply logf_Done in H as (-> & -> & _). auto.
Qed.

Lemma exec_all_threshold (cs : list Call) (w w' : World) :
  forallb (fun c => negb (is_CSet c)) cs = true ->
  unlocked w ->
  exec_all Sprintf cs w = Done tt w' ->
  unlocked w' /\ globalLogLevel w' = globalLogLevel w.
Proof.
  revert w. induction cs as [|c cs IH]; intros w Hcs Hu H; cbn in *.
  - injection H as <-. auto.
  - apply andb_true_iff in Hcs as (Hc & Hcs).
    apply negb_true_iff in Hc.
    apply bind_Done in H as ([] & w1 & H1 & H).
    destruct (exec_threshold c w w1 Hc Hu H1) as (Hu1 & E1).
    destruct (IH w1 Hcs Hu1 H) as (Hu' & E'). split; [exact Hu'|].
    now rewrite E', E1.
Qed.

(** Every call that returns leaves the lock free, so a client that makes
    its calls one after the other always finds it free. *)
Lemma exec_unlocked (c : Call) (w w' : World) :
  unlocked w ->
  exec Sprintf c w = Done tt w' ->
  unlocked w'.
Proof.
  intros Hu H. destruct (is_CSet c) eqn:Ec.
  - destruct c; try discriminate. cbn in H.
    now apply SetGlobalMinLevel_Done in H as (_ & ->).
  - now apply (exec_threshold c w w' Ec Hu H).
Qed.

Lemma exec_all_unlocked (cs : list Call) (w w' : World) :
  unlocked w ->
  exec_all Sprintf cs w = Done tt w' ->
  unlocked w'.
Proof.
  revert w. induction cs as [|c cs IH]; intros w Hu H; cbn in H.
  - now injection H as <-.
  - apply bind_Done in H as ([] & w1 & H1 & H).
    eapply IH; [|exact H]. eapply exec_unlocked; eassumption.
Qed.

End Frame.

(** C7. [NewLogger] returns for every component, empty or not, and every
    output, nil or not. It returns the address of a fresh [Logger] holding
    exactly that component and an internal logger on exactly that output,
    standard output when the output is nil; the [Logger]s already there, the
    threshold, the lock, the writers and the clock are as before. No later
    sequence of calls of the package's interface changes the new [Logger]. *)
Theorem NewLogger_stores_fields
    (Sprintf : string -> list fmt.value -> string)
    (component : string) (output : option log.Writer) (w : World) :
  let sink := match output with Some f => f | None => os.Stdout end in
  let s := mkLogger (Some (log.New sink "" log.LstdFlags)) component in
  let a := length (loggers w) in
  exists w',
    NewLogger component output w = Done (Some a) w'
    /\ loggers w' = (loggers w ++ [s])%list
    /\ nth_error (loggers w') a = Some s
    /\ globalLogLevelMutex w' = globalLogLevelMutex w
    /\ globalLogLevel w' = globalLogLevel w
    /\ written w' = written w
    /\ faulty w' = faulty w
    /\ now w' = now w
    /\ forall cs w'',
         exec_all Sprintf cs w' = Done tt w'' ->
         nth_error (loggers w'') a = Some s.
Proof.
  intros sink s a. eexists. split; [reflexivity|]. cbn.
  assert (Ha : nth_error (loggers w ++ [s]) a = Some s).
  { unfold a. rewrite nth_error_app2, Nat.sub_diag by lia. reflexivity. }
  repeat split; try assumption.
  intros cs w'' H. apply exec_all_loggers in H as (more & ->). cbn.
  rewrite nth_error_app1; [exact Ha|].
  rewrite length_app. cbn. unfold a. lia.
Qed.

Lemma NewLogger_stores_fields_witness :
  exists w' w'',
    NewLogger "Worker" None (sample INFO) = Done (Some 2%nat) w'
    /\ exec_all fmt.Sprintf
         [CSet FINE; CLog MFine (Some 2%nat) "up" []; CNew "Other" (Some 9%nat)]
         w' = Done tt w''
    /\ nth_error (loggers w'') 2
       = Some (mkLogger (Some (log.New os.Stdout "" log.LstdFlags)) "Worker").
Proof.
  destruct (NewLogger_stores_fields fmt.Sprintf "Worker" None (sample INFO))
    as (w' & Hnew & _ & _ & _ & _ & _ & _ & _ & Hkeep).
  cbv in Hnew. injection Hnew as <-.
  eexists. eexists. split; [reflexivity|].
  split; [cbv; reflexivity|].
  apply (Hkeep [CSet FINE; CLog MFine (Some 2%nat) "up" [];
                CNew "Other" (Some 9%nat)]).
  cbv. reflexivity.
Defined.

(** C9. In the world as it is at process start, and after any sequence of
    calls that contains no [SetGlobalMinLevel], [GetGlobalMinLevel] returns
    INFO, and a call of one of the five methods on a usable [Logger] hands a
    line to its writer exactly when the method is [Error], [Warn] or
    [Info]. *)
Theorem default_threshold_is_INFO
    (Sprintf : string -> list fmt.value -> string)
    (faulty0 : log.Writer -> bool) (now0 : log.Time)
    (cs : list Call) (w : World) :
  forallb (fun c => negb (is_CSet c)) cs = true ->
  exec_all Sprintf cs (init faulty0 now0) = Done tt w ->
  GetGlobalMinLevel (init faulty0 now0) = Done INFO (init faulty0 now0)
  /\ GetGlobalMinLevel w = Done INFO w
  /\ forall (m : Method) (a : nat) (s : Logger) (lg : log.Logger)
            (msg : string) (params : list fmt.value),
       nth_error (loggers w) a = Some s ->
       internalLogger s = Some lg ->
       exists w',
         invoke Sprintf m (Some a) msg params w = Done tt w'
         /\ ((exists buf,
                written w' (log.out lg)
                = (written w (log.out lg) ++ [buf])%list)
             <-> In m [MError; MWarn; MInfo]).
Proof.
  intros Hcs Hrun.
  assert (Hu0 : unlocked (init faulty0 now0)) by reflexivity.
  destruct (exec_all_threshold Sprintf cs _ w Hcs Hu0 Hrun) as (Hu & Hlv).
  cbn in Hlv.
  split; [reflexivity|]. split.
  - rewrite <- Hlv. apply GetGlobalMinLevel_returns.
    now apply unlocked_writer_free.
  - intros m a s lg msg params Ha Hlg.
    destruct (invoke_level_check Sprintf w a s lg m msg params
                (unlocked_writer_free w Hu) Ha Hlg) as (w' & Hinv & Hiff & _).
    exists w'. split; [exact Hinv|].
    rewrite <- Hiff, Hlv. unfold INFO.
    destruct m; cbn; unfold ERROR, WARN, INFO, DEBUG, FINE;
      (split; [intros H; try lia; auto | intros H; try lia]);
      repeat (destruct H as [H|H]; try discriminate H); contradiction.
Qed.

Lemma default_threshold_is_INFO_witness :
  exists w,
    exec_all fmt.Sprintf [CNew "DB" (Some 7%nat); CGet]
      (init (fun _ => false) noon) = Done tt w
    /\ GetGlobalMinLevel w = Done INFO w.
Proof.
  eexists. split; [cbv; reflexivity|].
  eapply (default_threshold_is_INFO fmt.Sprintf (fun _ => false) noon
            [CNew "DB" (Some 7%nat); CGet]).
  - reflexivity.
  - cbv. reflexivity.
Defined.

(** C10. [SetGlobalMinLevel] takes any integer: the call returns and the
    value read back is that integer, in the range 0 to 4 or not. The check
    then compares the integers as they are: with a stored value below 0 every
    call of the five methods returns with the world unchanged, and with a
    stored value of 4 or more every call of the five methods on a usable
    [Logger] hands a line to its writer. *)
Theorem threshold_is_any_integer
    (Sprintf : string -> list fmt.value -> string)
    (v : LogLevel) (w : World) (m : Method) (a : nat) (s : Logger)
    (lg : log.Logger) (msg : string) (params : list fmt.value) :
  unlocked w ->
  nth_error (loggers w) a = Some s ->
  internalLogger s = Some lg ->
  exists w1,
    SetGlobalMinLevel v w = Done tt w1
    /\ GetGlobalMinLevel w1 = Done v w1
    /\ (v < 0 -> invoke Sprintf m (Some a) msg params w1 = Done tt w1)
    /\ (4 <= v ->
        exists buf w2,
          invoke Sprintf m (Some a) msg params w1 = Done tt w2
          /\ wrote w1 w2 (log.out lg) buf).
Proof.
  intros Hu Ha Hlg.
  exists (mkWorld sync.zero v (loggers w) (written w) (faulty w) (now w)).
  split; [now apply SetGlobalMinLevel_stores|].
  split; [now apply GetGlobalMinLevel_returns|].
  rewrite invoke_logf. split.
  - intros Hneg. apply logf_suppressed; [reflexivity|]. cbn.
    destruct m; cbn; unfold ERROR, WARN, INFO, DEBUG, FINE; lia.
  - intros Hbig. apply (logf_writes Sprintf _ a s lg); try assumption.
    + reflexivity.
    + cbn. destruct m; cbn; unfold ERROR, WARN, INFO, DEBUG, FINE; lia.
Qed.

Lemma threshold_is_any_integer_witness :
  (exists w1,
     SetGlobalMinLevel (-3) (sample INFO) = Done tt w1
     /\ GetGlobalMinLevel w1 = Done (-3) w1
     /\ invoke fmt.Sprintf MError (Some 0%nat) "boom" [] w1 = Done tt w1)
  /\ (exists w1 w2,
        SetGlobalMinLevel 17 (sample INFO) = Done tt w1
        /\ GetGlobalMinLevel w1 = Done 17 w1
        /\ invoke fmt.Sprintf MFine (Some 0%nat) "detail" [] w1 = Done tt w2
        /\ written w2 7%nat = ["[FINE][DB] detail" ++ nl]).
Proof.
  split.
  - destruct (threshold_is_any_integer fmt.Sprintf (-3) (sample INFO) MError 0
                (mkLogger (Some (log.New 7%nat "" 0)) "DB")
                (log.New 7%nat "" 0) "boom" [] eq_refl eq_refl eq_refl)
      as (w1 & Hset & Hget & Hlow & _).
    exists w1. repeat split; try assumption. apply Hlow. reflexivity.
  - destruct (threshold_is_any_integer fmt.Sprintf 17 (sample INFO) MFine 0
                (mkLogger (Some (log.New 7%nat "" 0)) "DB")
                (log.New 7%nat "" 0) "detail" [] eq_refl eq_refl eq_refl)
      as (w1 & Hset & Hget & _ & Hhigh).
    destruct Hhigh as (buf & w2 & Hinv & _); [discriminate|].
    exists w1, w2. repeat split; try assumption.
    cbv in Hset. injection Hset as <-.
    cbv in Hinv. injection Hinv as <-. reflexivity.
Defined.

(** *** The tests' tables, replayed *)

Example TestLoggerFiltering :
  map (fun t => map (logs t) [MError; MWarn; MInfo; MDebug; MFine])
    [ERROR; WARN; INFO; DEBUG; FINE]
  = [[true; false; false; false; false];
     [true; true; false; false; false];
     [true; true; true; false; false];
     [true; true; true; true; false];
     [true; true; true; true; true]].
Proof. vm_compute. reflexivity. Qed.

Example TestLoggerMessageFormatting :
  output_of "Worker" MWarn "Job %d failed for user %s"
    [fmt.VInt 123; fmt.VStr "Alice"]
  = ["[WARN][Worker] Job 123 failed for user Alice" ++ nl]
  /\ output_of "Service" MInfo "Service started" []
     = ["[INFO][Service] Service started" ++ nl]
  /\ output_of "" MDebug "Debug info for process: %s" [fmt.VStr "xyz"]
     = ["[DEBUG] Debug info for process: xyz" ++ nl].
Proof. repeat split; vm_compute; reflexivity. Qed.

(* ================================================================= *)
(** ** Further properties of the package *)

(** *** The threshold and its lock *)

(** X1. [GetGlobalMinLevel] only reads: while no writer holds the lock, two
    calls in a row return the same level, the one in the world, and the world
    after them is the world before them. *)
Theorem GetGlobalMinLevel_repeatable (w : World) :
  writer_free w ->
  (a <- GetGlobalMinLevel ;; b <- GetGlobalMinLevel ;; ret (a, b)) w
  = Done (globalLogLevel w, globalLogLevel w) w.
Proof.
  intros Hw. unfold bind.
  now rewrite !(GetGlobalMinLevel_returns w Hw).
Qed.

Lemma GetGlobalMinLevel_repeatable_witness :
  (a <- GetGlobalMinLevel ;; b <- GetGlobalMinLevel ;; ret (a, b))
    (sample DEBUG)
  = Done (DEBUG, DEBUG) (sample DEBUG).
Proof.
  apply (GetGlobalMinLevel_repeatable (sample DEBUG)). reflexivity.
Defined.


(** *** Receivers that cannot write *)

(** X3. The level is checked before the receiver is touched. On a nil
    [Logger], or on one whose internal logger is nil, a call above the
    threshold returns with the world unchanged, and a call at or below the
    threshold panics. *)
Theorem unusable_receiver
    (Sprintf : string -> list fmt.value -> string)
    (w : World) (l : LoggerPtr) (m : Method)
    (msg : string) (params : list fmt.value) :
  writer_free w ->
  unusable w l ->
  if Method_level m >? globalLogLevel w
  then invoke Sprintf m l msg params w = Done tt w
  else exists reason, invoke Sprintf m l msg params w = Panic reason.
Proof.
  intros Hw Hl. rewrite invoke_logf. unfold logf, bind.
  rewrite (GetGlobalMinLevel_returns w Hw).
  destruct (Method_level m >? globalLogLevel w); [reflexivity|].
  destruct l as [a|]; cbn.
  - destruct Hl as (s & -> & ->). cbn. eexists. reflexivity.
  - eexists. reflexivity.
Qed.

Lemma unusable_receiver_witness :
  invoke fmt.Sprintf MDebug None "x" [] (sample INFO) = Done tt (sample INFO)
  /\ exists reason,
       invoke fmt.Sprintf MError None "x" [] (sample INFO) = Panic reason.
Proof.
  split.
  - apply (unusable_receiver fmt.Sprintf (sample INFO) None MDebug "x" []);
      [reflexivity | exact I].
  - apply (unusable_receiver fmt.Sprintf (sample INFO) None MError "x" []);
      [reflexivity | exact I].
Defined.

(** *** Level names *)

Lemma length_append (a b : string) :
  String.length (a ++ b) = (String.length a + String.length b)%nat.
Proof. induction a as [|c a IH]; cbn; [reflexivity | now rewrite IH]. Qed.

Lemma append_cancel_r (a b s : string) : a ++ s = b ++ s -> a = b.
Proof.
  revert b. induction a as [|c a IH]; intros [|d b] H; cbn in H.
  - reflexivity.
  - apply (f_equal String.length) in H. cbn in H.
    rewrite length_append in H. lia.
  - apply (f_equal String.length) in H. cbn in H.
    rewrite length_append in H. lia.
  - injection H as -> H. f_equal. now apply IH.
Qed.

Lemma decimal_inj (a b : Z) : fmt.decimal a = fmt.decimal b -> a = b.
Proof.
  intros H. apply (f_equal fmt.parse_decimal) in H.
  rewrite !decimal_parse in H. now injection H.
Qed.

Lemma LogLevel_String_cases (l : LogLevel) :
  (l = ERROR /\ LogLevel_String l = "ERROR")
  \/ (l = WARN /\ LogLevel_String l = "WARN")
  \/ (l = INFO /\ LogLevel_String l = "INFO")
  \/ (l = DEBUG /\ LogLevel_String l = "DEBUG")
  \/ (l = FINE /\ LogLevel_String l = "FINE")
  \/ LogLevel_String l = "UNKNOWN_LOG_LEVEL(" ++ fmt.decimal l ++ ")".
Proof.
  unfold LogLevel_String.
  repeat match goal with
         | |- context [?x =? ?y] =>
             destruct (Z.eqb_spec x y) as [->|];
             [repeat (try (left; split; reflexivity); right);
              try (split; reflexivity) |]
         end.
  repeat right. reflexivity.
Qed.

(** X4. The name of a level identifies it: two levels with the same
    [String], named or not, are the same integer. *)
Theorem LogLevel_String_inj (a b : LogLevel) :
  LogLevel_String a = LogLevel_String b -> a = b.
Proof.
  intros H.
  destruct (LogLevel_String_cases a) as
    [(-> & Ea)|[(-> & Ea)|[(-> & Ea)|[(-> & Ea)|[(-> & Ea)|Ea]]]]];
  destruct (LogLevel_String_cases b) as
    [(-> & Eb)|[(-> & Eb)|[(-> & Eb)|[(-> & Eb)|[(-> & Eb)|Eb]]]]];
  try reflexivity;
  try rewrite Ea in H; try rewrite Eb in H; try discriminate H.
  cbn in H. repeat injection H as H.
  apply append_cancel_r in H. now apply decimal_inj.
Qed.

Lemma LogLevel_String_inj_witness : 7 = 3 + 4.
Proof.
  apply (LogLevel_String_inj 7 (3 + 4)). reflexivity.
Defined.

(** *** What sequences of calls keep *)

Section Sequences.

Variable Sprintf : string -> list fmt.value -> string.

Lemma logf_Done_sinks (w w' : World) (l : LoggerPtr) (level : LogLevel)
    (msg : string) (params : list fmt.value) :
  logf Sprintf l level msg params w = Done tt w' ->
  faulty w' = faulty w
  /\ now w' = now w
  /\ forall f, exists more, written w' f = (written w f ++ more)%list.
Proof.
  unfold logf. intros H.
  apply bind_Done in H as (t & w1 & Hget & H).
  apply GetGlobalMinLevel_Done in Hget as (_ & -> & ->).
  destruct (level >? globalLogLevel w).
  - injection H as <-. repeat split. intros f. exists [].
    now rewrite app_nil_r.
  - apply bind_Done in H as (s & w1 & Hd & H).
    unfold deref in Hd.
    destruct l as [a|]; [|discriminate].
    destruct (nth_error (loggers w) a); [|discriminate].
    injection Hd as <- <-.
    destruct (internalLogger _) as [lg|]; [|discriminate].
    cbn in H. injection H as <-. cbn. repeat split.
    intros f. destruct (Nat.eqb f (log.out lg)).
    + eexists. reflexivity.
    + exists []. now rewrite app_nil_r.
Qed.

Lemma exec_mutex (c : Call) (w w' : World) :
  exec Sprintf c w = Done tt w' ->
  globalLogLevelMutex w' = globalLogLevelMutex w.
Proof.
  destruct c as [level| |component output|m l msg params]; cbn; intros H.
  - apply SetGlobalMinLevel_Done in H as (Hu & ->). cbn. now rewrite Hu.
  - apply bind_Done in H as (v & w1 & Hget & H).
    apply GetGlobalMinLevel_Done in Hget as (_ & _ & ->).
    now injection H as <-.
  - cbv [NewLogger alloc_Logger bind ret] in H. now injection H as <-.
  - rewrite invoke_logf in H. now apply logf_Done in H as (-> & _).
Qed.

(** What one call leaves as it found it, by the kind of call. *)
Lemma exec_frame (c : Call) (w w' : World) :
  exec Sprintf c w = Done tt w' ->
  faulty w' = faulty w
  /\ now w' = now w
  /\ (forall f, exists more, written w' f = (written w f ++ more)%list)
  /\ (is_CLog c = false -> written w' = written w)
  /\ (is_CSet c = false -> globalLogLevel w' = globalLogLevel w)
  /\ (is_CNew c = false -> loggers w' = loggers w).
Proof.
  assert (Hsame : forall v v' : log.Writer -> list string,
             v' = v ->
             forall f, exists more, v' f = (v f ++ more)%list).
  { intros v v' -> f. exists []. now rewrite app_nil_r. }
  destruct c as [level| |component output|m l msg params]; cbn; intros H.
  - apply SetGlobalMinLevel_Done in H as (_ & ->). cbn.
    repeat split; auto; discriminate.
  - apply bind_Done in H as (v & w1 & Hget & H).
    apply GetGlobalMinLevel_Done in Hget as (_ & _ & ->).
    injection H as <-. repeat split; auto.
  - cbv [NewLogger alloc_Logger bind ret] in H. injection H as <-. cbn.
    repeat split; auto; discriminate.
  - rewrite invoke_logf in H.
    destruct (logf_Done Sprintf _ _ _ _ _ _ H) as (_ & Hlv & Hlg).
    destruct (logf_Done_sinks _ _ _ _ _ _ H) as (Hf & Hn & Hw).
    repeat split; auto; discriminate.
Qed.

Lemma exec_last_set (c : Call) (w w' : World) :
  exec Sprintf c w = Done tt w' ->
  globalLogLevel w' = last_set [c] (globalLogLevel w).
Proof.
  intros H. destruct (is_CSet c) eqn:E.
  - destruct c; try discriminate. cbn in *.
    now apply SetGlobalMinLevel_Done in H as (_ & ->).
  - destruct (exec_frame c w w' H) as (_ & _ & _ & _ & Hlv & _).
    rewrite (Hlv E). now destruct c.
Qed.

End Sequences.

Lemma exec_all_mutex
    (Sprintf : string -> list fmt.value -> string)
    (cs : list Call) (w w' : World) :
  exec_all Sprintf cs w = Done tt w' ->
  globalLogLevelMutex w' = globalLogLevelMutex w.
Proof.
  revert w. induction cs as [|c cs IH]; intros w H; cbn in H.
  - now injection H as <-.
  - apply bind_Done in H as ([] & w1 & H1 & H).
    rewrite (IH w1 H). now apply (exec_mutex Sprintf c).
Qed.

(** X5. A sequence of calls of the interface that returns leaves the lock
    exactly as it found it, whoever held it: no call returns while still
    holding the lock, and none releases a hold that is not its own. *)
Theorem calls_leave_lock_as_found
    (Sprintf : string -> list fmt.value -> string)
    (cs : list Call) (w w' : World) :
  exec_all Sprintf cs w = Done tt w' ->
  globalLogLevelMutex w' = globalLogLevelMutex w.
Proof.
  revert w. induction cs as [|c cs IH]; intros w H.
  - cbn in H. now injection H as <-.
  - cbn [exec_all] in H.
    apply bind_Done in H as ([] & w1 & Hfirst & Hrest).
    transitivity (globalLogLevelMutex w1).
    + exact (IH w1 Hrest).
    + exact (exec_mutex Sprintf c w w1 Hfirst).
Qed.

Lemma calls_leave_lock_as_found_witness :
  exists w',
    exec_all fmt.Sprintf
      [CGet; CLog MError (Some 0%nat) "boom" []]
      (mkWorld (sync.mkRWMutex false 2) INFO sample_loggers (fun _ => [])
         (fun _ => false) noon) = Done tt w'
    /\ globalLogLevelMutex w' = sync.mkRWMutex false 2.
Proof.
  eexists. split; [cbv; reflexivity|].
  apply (calls_leave_lock_as_found fmt.Sprintf
           [CGet; CLog MError (Some 0%nat) "boom" []]
           (mkWorld (sync.mkRWMutex false 2) INFO sample_loggers
              (fun _ => []) (fun _ => false) noon)).
  cbv. reflexivity.
Defined.

(** X6. Each part of the state has one kind of call that can change it. A
    sequence that returns and contains no call of the five methods has
    handed nothing to any writer; one that contains no [SetGlobalMinLevel]
    has left the threshold alone; one that contains no [NewLogger] has left
    the list of [Logger]s alone. *)
Theorem calls_change_only_their_part
    (Sprintf : string -> list fmt.value -> string)
    (cs : list Call) (w w' : World) :
  exec_all Sprintf cs w = Done tt w' ->
  (forallb (fun c => negb (is_CLog c)) cs = true -> written w' = written w)
  /\ (forallb (fun c => negb (is_CSet c)) cs = true ->
      globalLogLevel w' = globalLogLevel w)
  /\ (forallb (fun c => negb (is_CNew c)) cs = true ->
      loggers w' = loggers w).
Proof.
  revert w. induction cs as [|c cs IH]; intros w H; cbn in H.
  - injection H as <-. auto.
  - apply bind_Done in H as ([] & w1 & H1 & H).
    destruct (IH w1 H) as (Iw & Il & Ig).
    destruct (exec_frame Sprintf c w w1 H1) as (_ & _ & _ & Fw & Fl & Fg).
    cbn [forallb]. repeat split; intros Hc;
      apply andb_true_iff in Hc as (Hc & Hcs);
      apply negb_true_iff in Hc.
    + now rewrite (Iw Hcs), (Fw Hc).
    + now rewrite (Il Hcs), (Fl Hc).
    + now rewrite (Ig Hcs), (Fg Hc).
Qed.

Lemma calls_change_only_their_part_witness :
  exists w',
    exec_all fmt.Sprintf [CSet FINE; CNew "DB" None; CGet] (sample INFO)
    = Done tt w'
    /\ written w' = written (sample INFO).
Proof.
  eexists. split; [cbv; reflexivity|].
  apply (calls_change_only_their_part fmt.Sprintf
           [CSet FINE; CNew "DB" None; CGet] (sample INFO)).
  - cbv. reflexivity.
  - reflexivity.
Defined.



(** X8. The threshold after a sequence of calls that returns is the argument
    of the last [SetGlobalMinLevel] in it, and the threshold before it when
    there is none; [GetGlobalMinLevel] called next returns that value.
    Earlier settings leave no trace. *)
Theorem threshold_is_last_set
    (Sprintf : string -> list fmt.value -> string)
    (cs : list Call) (w w' : World) :
  writer_free w ->
  exec_all Sprintf cs w = Done tt w' ->
  GetGlobalMinLevel w' = Done (last_set cs (globalLogLevel w)) w'.
Proof.
  intros Hw H.
  assert (Hw' : writer_free w').
  { unfold writer_free. now rewrite (exec_all_mutex Sprintf cs w w' H). }
  rewrite (GetGlobalMinLevel_returns w' Hw'). f_equal.
  clear Hw Hw'. revert w H.
  induction cs as [|c cs IH]; intros w H; cbn in H.
  - now injection H as <-.
  - apply bind_Done in H as ([] & w1 & H1 & H).
    rewrite (IH w1 H), (exec_last_set Sprintf c w w1 H1).
    now destruct c.
Qed.

Lemma threshold_is_last_set_witness :
  exists w',
    exec_all fmt.Sprintf
      [CSet DEBUG; CLog MInfo (Some 0%nat) "x" []; CSet WARN; CGet]
      (sample INFO) = Done tt w'
    /\ GetGlobalMinLevel w' = Done WARN w'.
Proof.
  eexists. split; [cbv; reflexivity|].
  apply (threshold_is_last_set fmt.Sprintf
           [CSet DEBUG; CLog MInfo (Some 0%nat) "x" []; CSet WARN; CGet]
           (sample INFO)).
  - reflexivity.
  - cbv. reflexivity.
Defined.

(** X9. Saving the threshold, setting another one and setting the saved one
    again, as the tests' clean-up does, gives back the world exactly as it
    was: [SetGlobalMinLevel] changes the threshold and nothing besides. *)
Theorem save_and_restore (X : LogLevel) (w : World) :
  unlocked w ->
  (original <- GetGlobalMinLevel ;;
   SetGlobalMinLevel X ;;
   SetGlobalMinLevel original) w
  = Done tt w.
Proof.
  unfold unlocked. destruct w as [m lv hp wt fl t]. cbn.
  intros ->. reflexivity.
Qed.

Lemma save_and_restore_witness :
  (original <- GetGlobalMinLevel ;;
   SetGlobalMinLevel FINE ;;
   SetGlobalMinLevel original) (sample WARN)
  = Done tt (sample WARN).
Proof. apply (save_and_restore FINE (sample WARN)). reflexivity. Defined.

(** *** Lines *)

Lemma line_ends_with_newline (t : log.Time) (l : log.Logger) (s : string) :
  log.ends_with_newline (log.line t l s) = true.
Proof.
  unfold log.line. cbv zeta.
  generalize (log.formatHeader t (log.prefix l) (log.flag l) ++ s).
  intros buf. destruct (log.ends_with_newline buf) eqn:E; [exact E|].
  unfold log.ends_with_newline. rewrite last_byte_app. reflexivity.
Qed.

(** An admitted call on a usable [Logger] writes a line of [log], whatever
    the host's [Sprintf] does. *)
Lemma logf_writes_line (Sprintf : string -> list fmt.value -> string)
    (w : World) (a : nat) (s : Logger) (lg : log.Logger)
    (level : LogLevel) (msg : string) (params : list fmt.value) :
  writer_free w ->
  nth_error (loggers w) a = Some s ->
  internalLogger s = Some lg ->
  level <= globalLogLevel w ->
  exists text w',
    logf Sprintf (Some a) level msg params w = Done tt w'
    /\ wrote w w' (log.out lg) (log.line (now w) lg text).
Proof.
  intros Hw Ha Hlg Hle. unfold logf, bind.
  rewrite (GetGlobalMinLevel_returns w Hw).
  destruct (Z.gtb_spec level (globalLogLevel w)); [lia|].
  unfold deref. rewrite Ha, Hlg. cbn.
  do 2 eexists. split; [reflexivity|].
  unfold wrote; cbn. repeat split.
  - rewrite Nat.eqb_refl. reflexivity.
  - intros g Hg. now apply Nat.eqb_neq in Hg as ->.
Qed.

(** X10. Every buffer a call of the five methods hands to a writer ends with
    a newline, whatever the template, the arguments, the component and the
    flags and prefix of the internal logger: the log is a sequence of
    complete lines. *)
Theorem every_write_ends_with_newline
    (Sprintf : string -> list fmt.value -> string)
    (w : World) (a : nat) (s : Logger) (lg : log.Logger) (m : Method)
    (msg : string) (params : list fmt.value) :
  writer_free w ->
  nth_error (loggers w) a = Some s ->
  internalLogger s = Some lg ->
  Method_level m <= globalLogLevel w ->
  exists buf w',
    invoke Sprintf m (Some a) msg params w = Done tt w'
    /\ wrote w w' (log.out lg) buf
    /\ log.ends_with_newline buf = true.
Proof.
  intros Hw Ha Hlg Hle. rewrite invoke_logf.
  destruct (logf_writes_line Sprintf w a s lg _ msg params Hw Ha Hlg Hle)
    as (text & w' & Hrun & Hwr).
  eexists. exists w'. split; [exact Hrun|]. split; [exact Hwr|].
  apply line_ends_with_newline.
Qed.

Lemma every_write_ends_with_newline_witness :
  exists buf w',
    invoke fmt.Sprintf MWarn (Some 1%nat) "" [] (sample WARN) = Done tt w'
    /\ wrote (sample WARN) w' os.Stdout buf
    /\ log.ends_with_newline buf = true.
Proof.
  apply (every_write_ends_with_newline fmt.Sprintf (sample WARN) 1
           (mkLogger (Some (log.New os.Stdout "" log.LstdFlags)) "")
           (log.New os.Stdout "" log.LstdFlags) MWarn "" []);
    solve [reflexivity | discriminate].
Defined.

Lemma plain_line_is_line (t : log.Time) (f : log.Writer)
    (component : string) (level : LogLevel) (text : string) :
  log.line t (log.New f "" 0) (tagged level component text)
  = plain_line component level text.
Proof.
  unfold log.line, plain_line. cbn [log.prefix log.flag log.New].
  rewrite ends_with_newline_tagged, formatHeader_no_flags. cbn [append].
  destruct (log.ends_with_newline text); [now rewrite append_nil_r|].
  reflexivity.
Qed.

Lemma stamped_line_is_line (t : log.Time) (f : log.Writer)
    (component : string) (level : LogLevel) (text : string) :
  log.line t (log.New f "" log.LstdFlags) (tagged level component text)
  = stamp t ++ plain_line component level text.
Proof.
  unfold log.line, plain_line. cbn [log.prefix log.flag log.New].
  rewrite ends_with_newline_tagged, formatHeader_LstdFlags.
  destruct (log.ends_with_newline text);
    rewrite ?append_nil_r, ?append_assoc; reflexivity.
Qed.

Lemma admitted_on_wrote (w w' : World) (f g : log.Writer) (buf : string)
    (c : Call) :
  wrote w w' g buf -> admitted_on w f c -> admitted_on w' f c.
Proof.
  intros (_ & Hlv & Hlg & _) H.
  destruct c as [| | |m [a|] msg params]; cbn in *; try contradiction.
  now rewrite Hlv, Hlg.
Qed.

Lemma wrote_writer_free (w w' : World) (f : log.Writer) (buf : string) :
  wrote w w' f buf -> writer_free w -> writer_free w'.
Proof. unfold writer_free. now intros (-> & _). Qed.

(** X11. No line is lost and none is written twice. When calls of the five
    methods, all at or below the threshold, are made one after the other on
    [Logger]s that share the writer [f], as many buffers reach [f] as there
    were calls, and no other writer receives anything. *)
Theorem one_write_per_admitted_call
    (Sprintf : string -> list fmt.value -> string)
    (cs : list Call) (w : World) (f : log.Writer) :
  writer_free w ->
  Forall (admitted_on w f) cs ->
  exists w',
    exec_all Sprintf cs w = Done tt w'
    /\ length (written w' f) = (length (written w f) + length cs)%nat
    /\ forall g, g <> f -> written w' g = written w g.
Proof.
  revert w. induction cs as [|c cs IH]; intros w Hw Hall.
  - exists w. cbn. repeat split. lia.
  - inversion Hall as [|c' cs' Hc Hcs]; subst.
    destruct c as [| | |m [a|] msg params]; cbn in Hc; try contradiction.
    destruct Hc as (s & lg & Ha & Hlg & Hout & Hle).
    destruct (logf_writes Sprintf w a s lg _ msg params Hw Ha Hlg Hle)
      as (buf & w1 & Hrun & Hwr).
    rewrite Hout in Hwr.
    destruct (IH w1) as (w' & Hrest & Hlen & Hother).
    + eapply wrote_writer_free; eassumption.
    + eapply Forall_impl; [|exact Hcs].
      intros c. eapply admitted_on_wrote. exact Hwr.
    + exists w'. cbn [exec_all exec]. unfold bind at 1.
      rewrite invoke_logf, Hrun. split; [exact Hrest|].
      destruct Hwr as (_ & _ & _ & _ & _ & Hf & Hg). split.
      * rewrite Hlen, Hf, length_app. cbn. lia.
      * intros g Hne. now rewrite (Hother g Hne), (Hg g Hne).
Qed.

Lemma one_write_per_admitted_call_witness :
  exists w',
    exec_all fmt.Sprintf
      [CLog MError (Some 0%nat) "a" []; CLog MWarn (Some 0%nat) "b" [];
       CLog MError (Some 0%nat) "c" []]
      (sample WARN) = Done tt w'
    /\ length (written w' 7%nat) = 3%nat
    /\ forall g, g <> 7%nat -> written w' g = written (sample WARN) g.
Proof.
  apply (one_write_per_admitted_call fmt.Sprintf
           [CLog MError (Some 0%nat) "a" []; CLog MWarn (Some 0%nat) "b" [];
            CLog MError (Some 0%nat) "c" []]
           (sample WARN) 7%nat).
  - reflexivity.
  - repeat constructor;
      exists (mkLogger (Some (log.New 7%nat "" 0)) "DB"), (log.New 7%nat "" 0);
      repeat split; discriminate.
Defined.

(** X12. Lines appear in the order of the calls. When calls at or below the
    threshold are made one after the other on one [Logger] with no header
    flags, its writer receives, after what it had, one buffer per call, in
    call order, each the tagged text of that call with its closing
    newline. *)
Theorem lines_in_call_order
    (Sprintf : string -> list fmt.value -> string)
    (items : list (Method * string * list fmt.value))
    (w : World) (a : nat) (s : Logger) (f : log.Writer) :
  formats_strings Sprintf ->
  writer_free w ->
  nth_error (loggers w) a = Some s ->
  internalLogger s = Some (log.New f "" 0) ->
  Forall (fun item => Method_level (fst (fst item)) <= globalLogLevel w)
    items ->
  exists w',
    exec_all Sprintf (map (log_call a) items) w = Done tt w'
    /\ written w' f
       = (written w f
          ++ map (fun item =>
                    plain_line (component s) (Method_level (fst (fst item)))
                      (Sprintf (snd (fst item)) (snd item)))
               items)%list.
Proof.
  intros HS. revert w.
  induction items as [|[[m msg] params] items IH]; intros w Hw Ha Hlg Hall.
  - exists w. cbn. split; [reflexivity | now rewrite app_nil_r].
  - inversion Hall as [|i rest Hle Hrest]; subst. cbn in Hle.
    destruct (logf_emits Sprintf w a s _ (Method_level m) msg params
                HS Hw Ha Hlg Hle) as (w1 & Hrun & Hwr).
    cbn [log.out log.New] in Hwr. rewrite plain_line_is_line in Hwr.
    pose proof Hwr as (_ & Hlv & Hlgs & _ & _ & Hf & _).
    destruct (IH w1) as (w' & Hexec & Hwritten).
    + eapply wrote_writer_free; eassumption.
    + now rewrite Hlgs.
    + exact Hlg.
    + now rewrite Hlv.
    + exists w'. cbn [map log_call exec_all exec]. unfold bind at 1.
      rewrite invoke_logf, Hrun. split; [exact Hexec|].
      rewrite Hwritten, Hf. cbn. now rewrite <- app_assoc.
Qed.

Lemma lines_in_call_order_witness :
  exists w',
    exec_all fmt.Sprintf
      (map (log_call 0)
         [(MError, "first %d", [fmt.VInt 1]); (MWarn, "second", [])])
      (sample WARN) = Done tt w'
    /\ written w' 7%nat
       = ["[ERROR][DB] first 1" ++ nl; "[WARN][DB] second" ++ nl].
Proof.
  apply (lines_in_call_order fmt.Sprintf
           [(MError, "first %d", [fmt.VInt 1]); (MWarn, "second", [])]
           (sample WARN) 0 (mkLogger (Some (log.New 7%nat "" 0)) "DB") 7%nat).
  - exact fmt_Sprintf_formats_strings.
  - reflexivity.
  - reflexivity.
  - reflexivity.
  - repeat constructor; discriminate.
Defined.

(** *** Construction, then use *)

(** X13. A [Logger] fresh from [NewLogger] is ready for use. A call at or
    below the threshold on it returns and hands its output, standard output
    when the output was nil, exactly one buffer: the date and time stamp
    followed by the tagged text; no other writer receives anything. *)
Theorem NewLogger_then_log
    (Sprintf : string -> list fmt.value -> string)
    (component : string) (output : option log.Writer) (w : World)
    (m : Method) (msg : string) (params : list fmt.value) :
  formats_strings Sprintf ->
  writer_free w ->
  Method_level m <= globalLogLevel w ->
  let sink := match output with Some f => f | None => os.Stdout end in
  exists w',
    (l <- NewLogger component output ;; invoke Sprintf m l msg params) w
    = Done tt w'
    /\ written w' sink
       = (written w sink
          ++ [(stamp (now w)
               ++ plain_line component (Method_level m)
                    (Sprintf msg params))%string])%list
    /\ forall g, g <> sink -> written w' g = written w g.
Proof.
  intros HS Hw Hle sink. unfold bind at 1.
  destruct (NewLogger component output w) as [l w1| |] eqn:Hnew;
    cbv [NewLogger alloc_Logger] in Hnew; try discriminate.
  injection Hnew as <- <-. fold sink. rewrite invoke_logf.
  match goal with
  | |- context [logf _ _ _ _ _ ?w1] =>
      destruct (logf_emits Sprintf w1 (length (loggers w))
                  (mkLogger (Some (log.New sink "" log.LstdFlags)) component)
                  (log.New sink "" log.LstdFlags)
                  (Method_level m) msg params HS)
        as (w' & Hrun & Hwr)
  end.
  - exact Hw.
  - cbn. rewrite nth_error_app2, Nat.sub_diag by lia. reflexivity.
  - reflexivity.
  - exact Hle.
  - exists w'. split; [exact Hrun|].
    rewrite <- (stamped_line_is_line (now w) sink).
    destruct Hwr as (_ & _ & _ & _ & _ & Hf & Hg).
    split; [exact Hf | exact Hg].
Qed.

Lemma NewLogger_then_log_witness :
  exists w',
    (l <- NewLogger "Svc" None ;; invoke fmt.Sprintf MInfo l "up" [])
      (sample INFO) = Done tt w'
    /\ written w' os.Stdout
       = [("2024/03/07 12:00:05 [INFO][Svc] up" ++ nl)%string]
    /\ forall g, g <> os.Stdout -> written w' g = written (sample INFO) g.
Proof.
  apply (NewLogger_then_log fmt.Sprintf "Svc" None (sample INFO) MInfo "up" []).
  - exact fmt_Sprintf_formats_strings.
  - reflexivity.
  - discriminate.
Defined.

(** X14. A [Logger] from the tests' constructor writes the same line with no
    stamp in front: the buffer is the tagged text and its closing newline,
    which is what lets the tests compare output as strings. *)
Theorem newTestLogger_then_log
    (Sprintf : string -> list fmt.value -> string)
    (output : log.Writer) (component : string) (w : World)
    (m : Method) (msg : string) (params : list fmt.value) :
  formats_strings Sprintf ->
  writer_free w ->
  Method_level m <= globalLogLevel w ->
  exists w',
    (l <- newTestLogger output component ;; invoke Sprintf m l msg params) w
    = Done tt w'
    /\ written w' output
       = (written w output
          ++ [plain_line component (Method_level m) (Sprintf msg params)])%list
    /\ forall g, g <> output -> written w' g = written w g.
Proof.
  intros HS Hw Hle. unfold bind at 1.
  destruct (newTestLogger output component w) as [l w1| |] eqn:Hnew;
    cbv [newTestLogger alloc_Logger] in Hnew; try discriminate.
  injection Hnew as <- <-. rewrite invoke_logf.
  match goal with
  | |- context [logf _ _ _ _ _ ?w1] =>
      destruct (logf_emits Sprintf w1 (length (loggers w))
                  (mkLogger (Some (log.New output "" 0)) component)
                  (log.New output "" 0)
                  (Method_level m) msg params HS)
        as (w' & Hrun & Hwr)
  end.
  - exact Hw.
  - cbn. rewrite nth_error_app2, Nat.sub_diag by lia. reflexivity.
  - reflexivity.
  - exact Hle.
  - exists w'. split; [exact Hrun|].
    rewrite <- (plain_line_is_line (now w) output).
    destruct Hwr as (_ & _ & _ & _ & _ & Hf & Hg).
    split; [exact Hf | exact Hg].
Qed.

Lemma newTestLogger_then_log_witness :
  exists w',
    (l <- newTestLogger 7%nat "" ;;
     invoke fmt.Sprintf MError l "disk %s" [fmt.VStr "full"])
      (sample ERROR) = Done tt w'
    /\ written w' 7%nat = ["[ERROR] disk full" ++ nl]
    /\ forall g, g <> 7%nat -> written w' g = written (sample ERROR) g.
Proof.
  apply (newTestLogger_then_log fmt.Sprintf 7%nat "" (sample ERROR) MError
           "disk %s" [fmt.VStr "full"]).
  - exact fmt_Sprintf_formats_strings.
  - reflexivity.
  - discriminate.
Defined.

(** X15. [NewLogger] never hands out an address twice. Two [Logger]s built
    one after the other, with any calls in between, have different
    addresses, and afterwards each address still leads to the component and
    the output given when it was built. *)
Theorem NewLogger_addresses_are_fresh
    (Sprintf : string -> list fmt.value -> string)
    (c1 c2 : string) (o1 o2 : option log.Writer) (cs : list Call)
    (w w1 w2 w3 : World) (p1 p2 : LoggerPtr) :
  NewLogger c1 o1 w = Done p1 w1 ->
  exec_all Sprintf cs w1 = Done tt w2 ->
  NewLogger c2 o2 w2 = Done p2 w3 ->
  p1 <> p2
  /\ deref p1 w3
     = Done (mkLogger
               (Some (log.New (match o1 with Some f => f | None => os.Stdout end)
                        "" log.LstdFlags)) c1) w3
  /\ deref p2 w3
     = Done (mkLogger
               (Some (log.New (match o2 with Some f => f | None => os.Stdout end)
                        "" log.LstdFlags)) c2) w3.
Proof.
  intros H1 Hcs H2.
  cbv [NewLogger alloc_Logger] in H1. injection H1 as <- <-.
  apply exec_all_loggers in Hcs as (more & Hmore). cbn in Hmore.
  cbv [NewLogger alloc_Logger] in H2. injection H2 as <- <-.
  rewrite Hmore. repeat split.
  - intros E. injection E as E. rewrite !length_app in E. cbn in E. lia.
  - unfold deref. cbn. rewrite <- !app_assoc.
    rewrite nth_error_app2, Nat.sub_diag by lia. reflexivity.
  - unfold deref. cbn.
    rewrite nth_error_app2, Nat.sub_diag by lia. reflexivity.
Qed.

Lemma NewLogger_addresses_are_fresh_witness :
  Some 2%nat <> Some 3%nat.
Proof.
  eapply (NewLogger_addresses_are_fresh fmt.Sprintf "A" "B" None (Some 9%nat)
            [CSet FINE; CLog MFine (Some 2%nat) "x" []] (sample INFO)).
  - cbv. reflexivity.
  - cbv. reflexivity.
  - cbv. reflexivity.
Defined.
